(** * sqs-orchestrator: the packaging script and the lease tracker design

    The repository's source is the packaging script [setup.py].  Its
    module-level statements are embedded in [SetupPy] as a program in a
    small state-and-exception monad, run against a [world] that decides
    what the two imports and the [setup] call do.

    The orchestration engine the specification describes (lease tracker,
    supervisor, visibility extender) belongs to the package
    [sqs_orchestrator] that [setup.py] declares; its modules are not among
    the sources.  [LeaseTracker] models the tracker's four operations, and
    the status and slot writes on its leases, from the specification's
    text. *)

From stdpp Require Import base option list gmap strings.
From Stdlib Require Import ZArith Ascii.

Set Warnings "-register-all".
Open Scope string_scope.
Open Scope list_scope.

(** ** setup.py *)
Module SetupPy.

(** Exceptions an import or a call may raise.  The clause
    [except ImportError] matches by instance, so it takes [ImportError]
    and any class derived from it (such as [ModuleNotFoundError]). *)
Inductive exn : Type :=
  | ImportError
  | ImportErrorSubclass (cls : string)
  | NameError (name : string)
  | OtherException (cls : string).

Definition is_ImportError (e : exn) : bool :=
  match e with
  | ImportError | ImportErrorSubclass _ => true
  | NameError _ | OtherException _ => false
  end.

(** Whether an object was made by a [def] or by a [class] statement. *)
Inductive def_kind : Type := FunctionDef | ClassDef.

(** Python values the script can hold: string literals, list displays,
    objects obtained from another module by [from m import n], and
    functions or classes the module itself defines. *)
Inductive value : Type :=
  | VStr (s : string)
  | VList (xs : list value)
  | VImported (module name : string)
  | VDefined (kind : def_kind) (name : string).

Definition kwargs : Type := list (string * value).

(** What the interpreter is seen to do: import attempts and calls. *)
Inductive event : Type :=
  | EvImport (module name : string)
  | EvCall (callee : value) (args : kwargs).

(** The environment the script runs in: whether [from module import name]
    raises, and whether calling an object with given keywords raises. *)
Record world : Type := World {
  import_raises : string → string → option exn;
  call_raises : value → kwargs → option exn
}.

(** Interpreter state: the module's global namespace and the trace. *)
Record state : Type := State {
  globals : gmap string value;
  trace : list event
}.

Definition initial : state := State ∅ [].

(** Computations: a result or a raised exception, and the state reached. *)
Definition M (A : Type) : Type := state → (exn + A) * state.

#[global] Instance M_ret : MRet M := λ A x s, (inr x, s).

#[global] Instance M_bind : MBind M := λ A B f m s,
  match m s with
  | (inl e, s') => (inl e, s')
  | (inr x, s') => f x s'
  end.

Definition raise {A : Type} (e : exn) : M A := λ s, (inl e, s).

Definition log (ev : event) : M unit :=
  λ s, (inr (), State (globals s) (trace s ++ [ev])).

(** [try: body except <class>: handler] *)
Definition try_except {A : Type} (body : M A) (catches : exn → bool)
    (handler : M A) : M A :=
  λ s, match body s with
       | (inl e, s') => if catches e then handler s' else (inl e, s')
       | (inr x, s') => (inr x, s')
       end.

(** [name = v] *)
Definition store_name (name : string) (v : value) : M unit :=
  λ s, (inr (), State (<[name := v]> (globals s)) (trace s)).

(** Reading a global name; an unbound name raises [NameError]. *)
Definition load_name (name : string) : M value :=
  λ s, match globals s !! name with
       | Some v => (inr v, s)
       | None => (inl (NameError name), s)
       end.

(** [from module import name] *)
Definition import_from (w : world) (module name : string) : M unit :=
  log (EvImport module name) ;;
  match import_raises w module name with
  | Some e => raise e
  | None => store_name name (VImported module name)
  end.

(** A call with keyword arguments only; its return value is discarded. *)
Definition call (w : world) (callee : value) (args : kwargs) : M unit :=
  log (EvCall callee args) ;;
  match call_raises w callee args with
  | Some e => raise e
  | None => mret ()
  end.

(** The script, statement by statement.  A call evaluates its callee
    first and then the keyword values from left to right. *)
Definition setup_py (w : world) : M unit :=
  try_except (import_from w "setuptools" "setup")
             is_ImportError
             (import_from w "distutils.core" "setup") ;;
  store_name "version" (VStr "0.1.2") ;;
  setup ← load_name "setup" ;
  version ← load_name "version" ;
  call w setup
    [ ("name", VStr "sqs-orchestrator");
      ("version", version);
      ("author", VStr "Kshitij Mohan");
      ("author_email", VStr "kshitijmhn@gmail.com");
      ("description", VStr "");
      ("license", VStr "BSD");
      ("packages", VList [VStr "sqs_orchestrator"]);
      ("install_requires", VList [VStr "boto3"; VStr "multiprocessing-logging"]) ].

Definition run (w : world) : (exn + unit) * state := setup_py w initial.

(** The calls of a trace, in order. *)
Fixpoint calls_of (tr : list event) : list (value * kwargs) :=
  match tr with
  | [] => []
  | EvImport _ _ :: tr' => calls_of tr'
  | EvCall f args :: tr' => (f, args) :: calls_of tr'
  end.

Definition setup_calls (w : world) : list (value * kwargs) :=
  calls_of (trace (run w).2).

(** The value passed for a keyword. *)
Fixpoint keyword (k : string) (args : kwargs) : option value :=
  match args with
  | [] => None
  | (k', v) :: args' => if String.eqb k k' then Some v else keyword k args'
  end.

(** The script's text: its physical lines, joined by newlines.  The file
    ends after the closing parenthesis of the call, without a final
    newline. *)
Definition newline : ascii := ascii_of_nat 10.

Definition double_quote : string := String (ascii_of_nat 34) "".

Definition quoted (s : string) : string := double_quote +:+ s +:+ double_quote.

Definition source_lines : list string :=
  [ "try:";
    "    from setuptools import setup";
    "except ImportError:";
    "    from distutils.core import setup";
    "";
    "version = " +:+ quoted "0.1.2";
    "setup(";
    "    name=" +:+ quoted "sqs-orchestrator" +:+ ",";
    "    version=version,";
    "    author=" +:+ quoted "Kshitij Mohan" +:+ ",";
    "    author_email=" +:+ quoted "kshitijmhn@gmail.com" +:+ ",";
    "    description=(" +:+ quoted "" +:+ "),";
    "    license=" +:+ quoted "BSD" +:+ ",";
    "    packages=[" +:+ quoted "sqs_orchestrator" +:+ "],";
    "    install_requires=['boto3', 'multiprocessing-logging'],";
    ")" ].

Definition setup_py_text : string :=
  String.concat (String newline "") source_lines.

(** Lines as [wc -l] counts them: one per newline character. *)
Fixpoint count_char (c : ascii) (s : string) : nat :=
  match s with
  | EmptyString => 0
  | String c' s' => (if Ascii.eqb c c' then 1 else 0) + count_char c s'
  end.

Fixpoint strip_indent (s : string) : string :=
  match s with
  | String c s' =>
      if Ascii.eqb c (ascii_of_nat 32) || Ascii.eqb c (ascii_of_nat 9)
      then strip_indent s' else s
  | EmptyString => EmptyString
  end.

(** Whether a line opens a function or a class definition. *)
Definition opens_definition (line : string) : bool :=
  let stmt := strip_indent line in
  String.prefix "def " stmt || String.prefix "async def " stmt
  || String.prefix "class " stmt.

(** Whether a value is a function or class defined by the module itself. *)
Definition is_defined_here (v : value) : bool :=
  match v with
  | VDefined _ _ => true
  | VStr _ | VList _ | VImported _ _ => false
  end.

(** The keywords the call receives once [version] has been read back. *)
Definition passed_keywords : kwargs :=
  [ ("name", VStr "sqs-orchestrator");
    ("version", VStr "0.1.2");
    ("author", VStr "Kshitij Mohan");
    ("author_email", VStr "kshitijmhn@gmail.com");
    ("description", VStr "");
    ("license", VStr "BSD");
    ("packages", VList [VStr "sqs_orchestrator"]);
    ("install_requires", VList [VStr "boto3"; VStr "multiprocessing-logging"]) ].

(** How a call that may raise ends. *)
Definition outcome (o : option exn) : exn + unit :=
  match o with
  | Some e => inl e
  | None => inr ()
  end.

(** The namespace once both names are bound. *)
Definition bound (provider : string) : gmap string value :=
  <["version" := VStr "0.1.2"]> (<["setup" := VImported provider "setup"]> ∅).

(** The two ways a run can end: after calling the [setup] of one of the
    two providers, or at an import that raised, before any name is bound. *)
Inductive run_shape (w : world) : Prop :=
  | shape_call (provider : string) (imports : list event) :
      provider = "setuptools" ∨ provider = "distutils.core" →
      calls_of imports = [] →
      (run w).2 = State (bound provider)
                        (imports ++ [EvCall (VImported provider "setup") passed_keywords]) →
      run_shape w
  | shape_raise (imports : list event) :
      calls_of imports = [] →
      (run w).2 = State ∅ imports →
      run_shape w.

(** Worlds used as concrete inputs. *)
Definition world_setuptools : world :=
  World (λ _ _, None) (λ _ _, None).

Definition world_distutils_only : world :=
  World (λ module _, if String.eqb module "setuptools"
                     then Some (ImportErrorSubclass "ModuleNotFoundError")
                     else None)
        (λ _ _, None).

Definition world_broken_setuptools : world :=
  World (λ module _, if String.eqb module "setuptools"
                     then Some (OtherException "SyntaxError")
                     else None)
        (λ _ _, None).

(** Neither setuptools nor distutils is installed. *)
Definition world_no_provider : world :=
  World (λ _ _, Some (ImportErrorSubclass "ModuleNotFoundError")) (λ _ _, None).

(** setuptools imports, and its [setup] exits with an error. *)
Definition world_setup_fails : world :=
  World (λ _ _, None) (λ _ _, Some (OtherException "SystemExit")).

(** The import attempts of a trace, in order, by module. *)
Fixpoint imports_of (tr : list event) : list string :=
  match tr with
  | [] => []
  | EvImport module _ :: tr' => module :: imports_of tr'
  | EvCall _ _ :: tr' => imports_of tr'
  end.

(** The four courses a run can take, by what the two imports do. *)
Inductive run_case (w : world) : Prop :=
  | case_setuptools :
      import_raises w "setuptools" "setup" = None →
      run w = (outcome (call_raises w (VImported "setuptools" "setup") passed_keywords),
               State (bound "setuptools")
                     [EvImport "setuptools" "setup";
                      EvCall (VImported "setuptools" "setup") passed_keywords]) →
      run_case w
  | case_distutils (e : exn) :
      import_raises w "setuptools" "setup" = Some e →
      is_ImportError e = true →
      import_raises w "distutils.core" "setup" = None →
      run w = (outcome (call_raises w (VImported "distutils.core" "setup") passed_keywords),
               State (bound "distutils.core")
                     [EvImport "setuptools" "setup"; EvImport "distutils.core" "setup";
                      EvCall (VImported "distutils.core" "setup") passed_keywords]) →
      run_case w
  | case_no_provider (e e' : exn) :
      import_raises w "setuptools" "setup" = Some e →
      is_ImportError e = true →
      import_raises w "distutils.core" "setup" = Some e' →
      run w = (inl e', State ∅ [EvImport "setuptools" "setup";
                                EvImport "distutils.core" "setup"]) →
      run_case w
  | case_uncaught (e : exn) :
      import_raises w "setuptools" "setup" = Some e →
      is_ImportError e = false →
      run w = (inl e, State ∅ [EvImport "setuptools" "setup"]) →
      run_case w.

End SetupPy.

(** ** The lease tracker of the design *)
Module LeaseTracker.

Open Scope Z_scope.

(** Modelled from the spec: the Message of the data model (section 3), whose
    implementation is not among the sources: payload, receipt handle and
    approximate receive count, together with the message identity a lease
    records. *)
Record Message : Type := mkMessage {
  body : string;
  msg_identity : string;
  msg_receipt_handle : string;
  receive_count : nat
}.

(** Modelled from the spec: the status of a Lease (section 3). *)
Inductive lease_status : Type := Active | Extending | Releasing | Expired.

(** Modelled from the spec: the Lease record of section 3, with timestamps
    as integers.  The operations name a lease by a lease id, which the
    record does not list as a field; the receipt handle, unique per
    delivery, serves as that id. *)
Record Lease : Type := mkLease {
  receipt_handle : string;
  message_identity : string;
  acquired_at : Z;
  deadline : Z;
  worker_slot : option nat;
  status : lease_status
}.

#[global] Instance lease_status_eq_dec : EqDecision lease_status.
Proof. solve_decision. Defined.

#[global] Instance Lease_eq_dec : EqDecision Lease.
Proof. solve_decision. Defined.

(** Modelled from the spec: the in-memory registry of the Lease Tracker
    (sections 2 and 4.2), in registration order. *)
Abbreviation Tracker := (list Lease).

Definition empty : Tracker := [].

(** Modelled from the spec: the failure of [register] (section 4.2). *)
Inductive error : Type := DuplicateLeaseError.

(** Modelled from the spec: a lease that is active for a message identity. *)
Definition active_for (mid : string) (l : Lease) : Prop :=
  message_identity l = mid ∧ status l = Active.

#[global] Instance active_for_dec mid l : Decision (active_for mid l).
Proof. unfold active_for. apply _. Defined.

(** Modelled from the spec: [register(message, deadline)] of section 4.2:
    it fails with DuplicateLeaseError if the message identity is already
    tracked active, and otherwise tracks and returns a new active lease.
    [now] is the clock reading recorded as the acquired-at timestamp. *)
Definition register (now : Z) (m : Message) (dl : Z) (t : Tracker)
    : (error + Lease) * Tracker :=
  if decide (Exists (active_for (msg_identity m)) t)
  then (inl DuplicateLeaseError, t)
  else
    let l := mkLease (msg_receipt_handle m) (msg_identity m) now dl None Active in
    (inr l, t ++ [l]).

(** Modelled from the spec: a lease [extend] still acts on (section 4.2:
    no-op if the lease is already released or expired). *)
Definition extendable (id : string) (l : Lease) : Prop :=
  receipt_handle l = id ∧ (status l = Active ∨ status l = Extending).

#[global] Instance extendable_dec id l : Decision (extendable id l).
Proof. unfold extendable. apply _. Defined.

Definition set_deadline (dl : Z) (l : Lease) : Lease :=
  mkLease (receipt_handle l) (message_identity l) (acquired_at l) dl
          (worker_slot l) (status l).

(** Modelled from the spec: [extend(lease_id, new_deadline)] of section
    4.2: the deadline update of a tracked lease; a lease that is no longer
    tracked, or is releasing or expired, is left alone. *)
Definition extend (id : string) (new_deadline : Z) (t : Tracker) : Tracker :=
  (λ l, if decide (extendable id l) then set_deadline new_deadline l else l) <$> t.

(** Modelled from the spec: [release(lease_id)] of section 4.2: removes
    the tracking of that lease and calls nothing else. *)
Definition release (id : string) (t : Tracker) : Tracker :=
  filter (λ l, receipt_handle l ≠ id) t.

(** Modelled from the spec: [expire_sweep(now)] of section 4.2: returns and
    removes the leases whose deadline has passed. *)
Definition expire_sweep (now : Z) (t : Tracker) : list Lease * Tracker :=
  (filter (λ l, deadline l < now) t, filter (λ l, ¬ deadline l < now) t).

(** Modelled from the spec: the four operations of section 4.2 as requests
    to the tracker, and what each one answers. *)
Inductive op : Type :=
  | Register (now : Z) (m : Message) (dl : Z)
  | Extend (id : string) (new_deadline : Z)
  | Release (id : string)
  | ExpireSweep (now : Z).

Inductive reply : Type :=
  | Registered (l : Lease)
  | Done
  | Swept (expired : list Lease).

(** Modelled from the spec: the tracker serving one request; a failed
    request leaves the registry as it was. *)
Definition step (o : op) (t : Tracker) : (error + reply) * Tracker :=
  match o with
  | Register now m dl =>
      match register now m dl t with
      | (inl e, t') => (inl e, t')
      | (inr l, t') => (inr (Registered l), t')
      end
  | Extend id dl => (inr Done, extend id dl t)
  | Release id => (inr Done, release id t)
  | ExpireSweep now =>
      let '(expired, t') := expire_sweep now t in (inr (Swept expired), t')
  end.

Definition run_ops (ops : list op) (t : Tracker) : Tracker :=
  foldl (λ t o, (step o t).2) t ops.







(** At most one active lease per message identity. *)
Definition at_most_one_active (t : Tracker) : Prop :=
  ∀ mid : string, (length (filter (active_for mid) t) ≤ 1)%nat.
















(** Concrete inputs. *)
Definition msg_a : Message := mkMessage "job A" "m-1" "rh-1" 1.
Definition msg_a_again : Message := mkMessage "job A" "m-1" "rh-2" 2.
Definition msg_b : Message := mkMessage "job B" "m-2" "rh-3" 1.

Definition two_leases : Tracker :=
  run_ops [Register 0 msg_a 30; Register 5 msg_b 35] empty.

Definition lease_a : Lease := mkLease "rh-1" "m-1" 0 30 None Active.

Definition lease_b : Lease := mkLease "rh-3" "m-2" 5 35 None Active.



End LeaseTracker.

(** ** What setup.py does *)
Module SetupPyFacts.
Import SetupPy.

Ltac unfold_monad :=
  unfold run, setup_py, try_except, import_from, call, store_name, load_name,
    log, raise, mbind, M_bind, mret, M_ret, initial; simpl.

Ltac read_globals :=
  repeat (rewrite ?lookup_insert_eq; rewrite ?lookup_insert_ne by done; simpl).

(** The run when [setup] comes from [provider] after the imports [tr]. *)
Lemma run_after_import (w : world) (provider : string) (tr : list event) :
  let setup := VImported provider "setup" in
  (store_name "version" (VStr "0.1.2") ;;
   setup ← load_name "setup" ;
   version ← load_name "version" ;
   call w setup
     [ ("name", VStr "sqs-orchestrator");
       ("version", version);
       ("author", VStr "Kshitij Mohan");
       ("author_email", VStr "kshitijmhn@gmail.com");
       ("description", VStr "");
       ("license", VStr "BSD");
       ("packages", VList [VStr "sqs_orchestrator"]);
       ("install_requires", VList [VStr "boto3"; VStr "multiprocessing-logging"]) ])
    (State (<["setup" := setup]> ∅) tr)
  = (outcome (call_raises w setup passed_keywords),
     State (bound provider) (tr ++ [EvCall setup passed_keywords])).
Proof.
  unfold_monad. read_globals. fold passed_keywords.
  unfold bound. by destruct (call_raises w _ _).
Qed.

Lemma run_setuptools (w : world) :
  import_raises w "setuptools" "setup" = None →
  run w = (outcome (call_raises w (VImported "setuptools" "setup") passed_keywords),
           State (bound "setuptools")
                 [EvImport "setuptools" "setup";
                  EvCall (VImported "setuptools" "setup") passed_keywords]).
Proof.
  intros Himp.
  pose proof (run_after_import w "setuptools" [EvImport "setuptools" "setup"]) as Hrun.
  revert Hrun. unfold_monad. rewrite Himp. simpl. read_globals. done.
Qed.

Lemma run_distutils (w : world) (e : exn) :
  import_raises w "setuptools" "setup" = Some e →
  is_ImportError e = true →
  import_raises w "distutils.core" "setup" = None →
  run w = (outcome (call_raises w (VImported "distutils.core" "setup") passed_keywords),
           State (bound "distutils.core")
                 [EvImport "setuptools" "setup"; EvImport "distutils.core" "setup";
                  EvCall (VImported "distutils.core" "setup") passed_keywords]).
Proof.
  intros Himp Hcatch Hfall.
  pose proof (run_after_import w "distutils.core"
                [EvImport "setuptools" "setup"; EvImport "distutils.core" "setup"]) as Hrun.
  revert Hrun. unfold_monad. rewrite Himp. simpl. rewrite Hcatch, Hfall. simpl.
  read_globals. done.
Qed.

Lemma run_no_fallback (w : world) (e e' : exn) :
  import_raises w "setuptools" "setup" = Some e →
  is_ImportError e = true →
  import_raises w "distutils.core" "setup" = Some e' →
  run w = (inl e', State ∅ [EvImport "setuptools" "setup"; EvImport "distutils.core" "setup"]).
Proof.
  intros Himp Hcatch Hfall. unfold_monad.
  rewrite Himp. simpl. rewrite Hcatch, Hfall. done.
Qed.

Lemma run_uncaught (w : world) (e : exn) :
  import_raises w "setuptools" "setup" = Some e →
  is_ImportError e = false →
  run w = (inl e, State ∅ [EvImport "setuptools" "setup"]).
Proof.
  intros Himp Hcatch. unfold_monad. rewrite Himp. simpl. by rewrite Hcatch.
Qed.

(** Every run is one of the four above. *)
Lemma run_shapes (w : world) : run_shape w.
Proof.
  destruct (import_raises w "setuptools" "setup") as [e|] eqn:Himp.
  - destruct (is_ImportError e) eqn:Hcatch.
    + destruct (import_raises w "distutils.core" "setup") as [e'|] eqn:Hfall.
      * apply (shape_raise w [EvImport "setuptools" "setup";
                              EvImport "distutils.core" "setup"]); [done|].
        by rewrite (run_no_fallback w e e').
      * apply (shape_call w "distutils.core"
                 [EvImport "setuptools" "setup"; EvImport "distutils.core" "setup"]);
          [by right|done|].
        by rewrite (run_distutils w e).
    + apply (shape_raise w [EvImport "setuptools" "setup"]); [done|].
      by rewrite (run_uncaught w e).
  - apply (shape_call w "setuptools" [EvImport "setuptools" "setup"]);
      [by left|done|].
    by rewrite run_setuptools.
Qed.

Lemma calls_of_app (tr1 tr2 : list event) :
  calls_of (tr1 ++ tr2) = calls_of tr1 ++ calls_of tr2.
Proof.
  induction tr1 as [|[m n|f args] tr1 IH]; simpl; [done|done|by rewrite IH].
Qed.

Lemma setup_calls_shape (w : world) (callee : value) (args : kwargs) :
  (callee, args) ∈ setup_calls w →
  args = passed_keywords ∧
  (callee = VImported "setuptools" "setup" ∨ callee = VImported "distutils.core" "setup").
Proof.
  unfold setup_calls.
  destruct (run_shapes w) as [provider imports Hprov Himports Hrun | imports Himports Hrun];
    rewrite Hrun; simpl.
  - rewrite calls_of_app, Himports. simpl.
    intros Hin. apply list_elem_of_singleton in Hin. simplify_eq.
    split; [done|]. destruct Hprov; subst; auto.
  - rewrite Himports. by intros ?%elem_of_nil.
Qed.

(** C2: in every environment, whatever call the script makes passes as
    [install_requires] the list of exactly boto3 and then
    multiprocessing-logging. *)
Theorem install_requires_declared (w : world) (callee : value) (args : kwargs) :
  (callee, args) ∈ setup_calls w →
  keyword "install_requires" args
  = Some (VList [VStr "boto3"; VStr "multiprocessing-logging"]).
Proof.
  intros [-> _]%setup_calls_shape. reflexivity.
Qed.

Lemma install_requires_declared_witness :
  ∃ callee args,
    setup_calls world_setuptools = [(callee, args)] ∧
    keyword "install_requires" args
    = Some (VList [VStr "boto3"; VStr "multiprocessing-logging"]).
Proof.
  exists (VImported "setuptools" "setup"), passed_keywords.
  assert (setup_calls world_setuptools
          = [(VImported "setuptools" "setup", passed_keywords)]) as Hcalls
    by (vm_compute; reflexivity).
  split; [exact Hcalls|].
  apply (install_requires_declared world_setuptools (VImported "setuptools" "setup")).
  rewrite Hcalls. apply list_elem_of_here.
Defined.

(** C10: in every environment, whatever call the script makes passes the
    literal name, version, license, the empty description and the single
    package. *)
Theorem setup_metadata_constant (w : world) (callee : value) (args : kwargs) :
  (callee, args) ∈ setup_calls w →
  keyword "name" args = Some (VStr "sqs-orchestrator") ∧
  keyword "version" args = Some (VStr "0.1.2") ∧
  keyword "license" args = Some (VStr "BSD") ∧
  keyword "description" args = Some (VStr "") ∧
  keyword "packages" args = Some (VList [VStr "sqs_orchestrator"]).
Proof.
  intros [-> _]%setup_calls_shape. repeat split.
Qed.

Lemma setup_metadata_constant_witness :
  ∃ callee args,
    setup_calls world_distutils_only = [(callee, args)] ∧
    keyword "name" args = Some (VStr "sqs-orchestrator") ∧
    keyword "version" args = Some (VStr "0.1.2") ∧
    keyword "license" args = Some (VStr "BSD") ∧
    keyword "description" args = Some (VStr "") ∧
    keyword "packages" args = Some (VList [VStr "sqs_orchestrator"]).
Proof.
  exists (VImported "distutils.core" "setup"), passed_keywords.
  assert (setup_calls world_distutils_only
          = [(VImported "distutils.core" "setup", passed_keywords)]) as Hcalls
    by (vm_compute; reflexivity).
  split; [exact Hcalls|].
  apply (setup_metadata_constant world_distutils_only (VImported "distutils.core" "setup")).
  rewrite Hcalls. apply list_elem_of_here.
Defined.

(** C9: when the setuptools import succeeds the script calls its [setup];
    when it raises an ImportError and distutils.core imports, the script
    calls that [setup] instead, with the same keywords; any other
    exception of the first import ends the run at once: it is the result,
    distutils.core is not tried and nothing is called. *)
Theorem setup_import_fallback (w1 w2 w3 : world) (e2 e3 : exn) :
  import_raises w1 "setuptools" "setup" = None →
  import_raises w2 "setuptools" "setup" = Some e2 →
  is_ImportError e2 = true →
  import_raises w2 "distutils.core" "setup" = None →
  import_raises w3 "setuptools" "setup" = Some e3 →
  is_ImportError e3 = false →
  ∃ args : kwargs,
    trace (run w1).2
    = [EvImport "setuptools" "setup"; EvCall (VImported "setuptools" "setup") args] ∧
    trace (run w2).2
    = [EvImport "setuptools" "setup"; EvImport "distutils.core" "setup";
       EvCall (VImported "distutils.core" "setup") args] ∧
    (run w3).1 = inl e3 ∧
    trace (run w3).2 = [EvImport "setuptools" "setup"].
Proof.
  intros H1 H2 Hcatch2 Hfall2 H3 Hcatch3.
  exists passed_keywords.
  rewrite (run_setuptools w1 H1), (run_distutils w2 e2 H2 Hcatch2 Hfall2),
    (run_uncaught w3 e3 H3 Hcatch3).
  done.
Qed.

Lemma setup_import_fallback_witness :
  ∃ args : kwargs,
    trace (run world_setuptools).2
    = [EvImport "setuptools" "setup"; EvCall (VImported "setuptools" "setup") args] ∧
    trace (run world_distutils_only).2
    = [EvImport "setuptools" "setup"; EvImport "distutils.core" "setup";
       EvCall (VImported "distutils.core" "setup") args] ∧
    (run world_broken_setuptools).1 = inl (OtherException "SyntaxError") ∧
    trace (run world_broken_setuptools).2 = [EvImport "setuptools" "setup"].
Proof.
  apply (setup_import_fallback world_setuptools world_distutils_only
           world_broken_setuptools (ImportErrorSubclass "ModuleNotFoundError")
           (OtherException "SyntaxError")); reflexivity.
Defined.

Lemma bound_names (provider : string) :
  dom (bound provider) = ({["setup"; "version"]} : gset string).
Proof. unfold bound. rewrite !dom_insert_L. set_solver. Qed.

Lemma bound_values (provider : string) :
  map_Forall (λ _ v, is_defined_here v = false) (bound provider).
Proof.
  unfold bound. intros name v.
  rewrite !lookup_insert. repeat case_decide; naive_solver.
Qed.

(** C1: the script's text has 15 newline-terminated lines, none of which
    opens a function or class definition; and in every environment the
    names it binds are among [setup] and [version], neither bound to a
    function or class of the script's own. *)
Theorem setup_py_is_packaging_only :
  count_char newline setup_py_text = 15 ∧
  Forall (λ line, opens_definition line = false) source_lines ∧
  ∀ w : world,
    dom (globals (run w).2) ⊆ ({["setup"; "version"]} : gset string) ∧
    map_Forall (λ _ v, is_defined_here v = false) (globals (run w).2).
Proof.
  split; [by vm_compute|]. split.
  { repeat constructor. }
  intros w.
  destruct (run_shapes w) as [provider imports _ _ Hrun | imports _ Hrun];
    rewrite Hrun; simpl.
  - split; [by rewrite bound_names | apply bound_values].
  - split; [set_solver | apply map_Forall_empty].
Qed.

End SetupPyFacts.

(** ** What the tracker operations keep *)
Module LeaseTrackerFacts.
Import LeaseTracker.

Section Filters.
Context {A : Type} (P Q : A → Prop) `{!∀ x, Decision (P x)} `{!∀ x, Decision (Q x)}.

Lemma filter_not_Exists (l : list A) : ¬ Exists P l → filter P l = [].
Proof.
  induction l as [|x l IH]; [done|].
  intros Hno. rewrite filter_cons. case_decide.
  - destruct Hno. by left.
  - apply IH. intros Hex. destruct Hno. by right.
Qed.

Lemma length_filter_filter (l : list A) :
  (length (filter P (filter Q l)) ≤ length (filter P l))%nat.
Proof.
  induction l as [|x l IH]; [done|].
  rewrite (filter_cons Q). rewrite (filter_cons P x l).
  repeat case_decide; rewrite ?filter_cons; repeat case_decide;
    simpl; try lia; done.
Qed.

Lemma length_filter_fmap (f : A → A) (l : list A) :
  (∀ x, P (f x) ↔ P x) →
  length (filter P (f <$> l)) = length (filter P l).
Proof.
  intros Hf. induction l as [|x l IH]; [done|].
  rewrite fmap_cons, !filter_cons.
  destruct (decide (P (f x))) as [Hy|Hn], (decide (P x)) as [Hy'|Hn'];
    simpl; rewrite ?IH; try done.
  - destruct Hn'. by apply Hf.
  - destruct Hn. by apply Hf.
Qed.


Lemma filter_idemp (l : list A) : filter P (filter P l) = filter P l.
Proof.
  induction l as [|x l IH]; [done|].
  rewrite filter_cons. case_decide; [|done].
  rewrite filter_cons. case_decide; [|done]. by rewrite IH.
Qed.

End Filters.


(** *** Each operation keeps at most one active lease per message *)

Lemma register_keeps (now : Z) (m : Message) (dl : Z) (t : Tracker) :
  at_most_one_active t → at_most_one_active (register now m dl t).2.
Proof.
  intros Hinv. unfold register.
  case_decide as Hdup; simpl; [done|].
  intros mid. rewrite filter_app, length_app, filter_cons, filter_nil.
  case_decide as Hact; simpl; [|specialize (Hinv mid); lia].
  destruct Hact as [<- _]. simpl in Hdup.
  by rewrite (filter_not_Exists _ _ Hdup).
Qed.

Lemma extend_keeps (id : string) (dl : Z) (t : Tracker) :
  at_most_one_active t → at_most_one_active (extend id dl t).
Proof.
  intros Hinv mid. unfold extend.
  rewrite length_filter_fmap; [apply Hinv|].
  intros l. by case_decide.
Qed.

Lemma release_keeps (id : string) (t : Tracker) :
  at_most_one_active t → at_most_one_active (release id t).
Proof.
  intros Hinv mid. unfold release.
  etrans; [apply length_filter_filter|apply Hinv].
Qed.

Lemma expire_sweep_keeps (now : Z) (t : Tracker) :
  at_most_one_active t → at_most_one_active (expire_sweep now t).2.
Proof.
  intros Hinv mid. unfold expire_sweep. simpl.
  etrans; [apply length_filter_filter|apply Hinv].
Qed.

Lemma step_keeps (o : op) (t : Tracker) :
  at_most_one_active t → at_most_one_active (step o t).2.
Proof.
  intros Hinv. destruct o as [now m dl|id dl|id|now]; simpl.
  - pose proof (register_keeps now m dl t Hinv) as Hreg.
    by destruct (register now m dl t) as [[e|l] t'].
  - by apply extend_keeps.
  - by apply release_keeps.
  - by apply expire_sweep_keeps.
Qed.

Lemma run_ops_keeps (ops : list op) (t : Tracker) :
  at_most_one_active t → at_most_one_active (run_ops ops t).
Proof.
  revert t. induction ops as [|o ops IH]; intros t Hinv; [done|].
  apply IH. by apply step_keeps.
Qed.



(** *** Writes besides the four operations *)











(** C5: registering a message whose identity is already tracked with an
    active lease fails with DuplicateLeaseError and leaves the tracker as
    it was. *)
Theorem register_duplicate_rejected (now : Z) (m : Message) (dl : Z) (t : Tracker) :
  Exists (active_for (msg_identity m)) t →
  register now m dl t = (inl DuplicateLeaseError, t) ∧
  step (Register now m dl) t = (inl DuplicateLeaseError, t).
Proof.
  intros Hdup.
  assert (register now m dl t = (inl DuplicateLeaseError, t)) as Hreg.
  { unfold register. by case_decide. }
  split; [exact Hreg|]. simpl. by rewrite Hreg.
Qed.

Lemma register_duplicate_rejected_witness :
  Exists (active_for (msg_identity msg_a_again)) two_leases ∧
  register 7 msg_a_again 40 two_leases = (inl DuplicateLeaseError, two_leases) ∧
  step (Register 7 msg_a_again 40) two_leases = (inl DuplicateLeaseError, two_leases).
Proof.
  assert (Exists (active_for (msg_identity msg_a_again)) two_leases) as Hdup.
  { apply Exists_cons_hd. split; reflexivity. }
  split; [exact Hdup|].
  exact (register_duplicate_rejected 7 msg_a_again 40 two_leases Hdup).
Defined.

(** C6: a second release of the same lease id answers without error and
    leaves the tracker as the first release left it. *)
Theorem release_idempotent (id : string) (t : Tracker) :
  step (Release id) (step (Release id) t).2 = (inr Done, (step (Release id) t).2) ∧
  run_ops [Release id; Release id] t = run_ops [Release id] t.
Proof.
  assert (release id (release id t) = release id t) as Hrel
    by apply filter_idemp.
  unfold run_ops. simpl. by rewrite Hrel.
Qed.

(** *** Reachable trackers *)






(** *** A swept lease does not come back *)
Section Swept.
Variable l : Lease.




End Swept.

Example sweep_at_32 : expire_sweep 32 two_leases = ([lease_a], [lease_b]).
Proof. reflexivity. Qed.

Example sweep_again_at_40 :
  expire_sweep 40 (expire_sweep 32 two_leases).2 = ([lease_b], []).
Proof. reflexivity. Qed.



End LeaseTrackerFacts.

(** ** More on what setup.py does *)
Module SetupPyRuns.
Import SetupPy SetupPyFacts.

Lemma run_cases (w : world) : run_case w.
Proof.
  destruct (import_raises w "setuptools" "setup") as [e|] eqn:Himp.
  - destruct (is_ImportError e) eqn:Hcatch.
    + destruct (import_raises w "distutils.core" "setup") as [e'|] eqn:Hfall.
      * apply (case_no_provider w e e' Himp Hcatch Hfall).
        by apply (run_no_fallback w e e').
      * apply (case_distutils w e Himp Hcatch Hfall).
        by apply (run_distutils w e).
    + apply (case_uncaught w e Himp Hcatch). by apply run_uncaught.
  - apply (case_setuptools w Himp). by apply run_setuptools.
Qed.

Ltac by_run_case w :=
  unfold setup_calls;
  destruct (run_cases w) as [Himp Hrun|e1 Himp Hcatch Hfall Hrun
                            |e1 e2 Himp Hcatch Hfall Hrun|e1 Himp Hcatch Hrun];
  rewrite Hrun; simpl.

Ltac one_call :=
  let H := fresh in
  intros H; apply list_elem_of_singleton in H; simplify_eq.

(** X1: whatever call the script makes passes exactly the eight keywords
    of the source, each once and in source order, with the author and the
    author's address as written; a keyword outside these is never passed. *)
Theorem setup_keywords_exact (w : world) (callee : value) (args : kwargs) :
  (callee, args) ∈ setup_calls w →
  args.*1 = ["name"; "version"; "author"; "author_email"; "description";
             "license"; "packages"; "install_requires"] ∧
  keyword "author" args = Some (VStr "Kshitij Mohan") ∧
  keyword "author_email" args = Some (VStr "kshitijmhn@gmail.com") ∧
  (∀ k : string, k ∉ args.*1 → keyword k args = None).
Proof.
  intros [-> _]%setup_calls_shape.
  split; [done|]. split; [done|]. split; [done|].
  intros k Hk. simpl in Hk. simpl.
  repeat match goal with
         | |- context [String.eqb k ?name] =>
             destruct (String.eqb_spec k name) as [->|_];
             [exfalso; apply Hk; set_solver|]
         end.
  done.
Qed.

Lemma setup_keywords_exact_witness :
  ∃ callee args,
    setup_calls world_setuptools = [(callee, args)] ∧
    args.*1 = ["name"; "version"; "author"; "author_email"; "description";
               "license"; "packages"; "install_requires"] ∧
    keyword "author" args = Some (VStr "Kshitij Mohan") ∧
    keyword "author_email" args = Some (VStr "kshitijmhn@gmail.com") ∧
    (∀ k : string, k ∉ args.*1 → keyword k args = None).
Proof.
  exists (VImported "setuptools" "setup"), passed_keywords.
  assert (setup_calls world_setuptools
          = [(VImported "setuptools" "setup", passed_keywords)]) as Hcalls
    by (vm_compute; reflexivity).
  split; [exact Hcalls|].
  apply (setup_keywords_exact world_setuptools (VImported "setuptools" "setup")).
  rewrite Hcalls. apply list_elem_of_here.
Defined.

(** X2: when setuptools is missing and the import of distutils.core raises
    as well, the run ends with that second exception, even if it is an
    ImportError too; nothing is called and no name is bound. *)
Theorem no_provider_no_call (w : world) (e e' : exn) :
  import_raises w "setuptools" "setup" = Some e →
  is_ImportError e = true →
  import_raises w "distutils.core" "setup" = Some e' →
  (run w).1 = inl e' ∧ setup_calls w = [] ∧ globals (run w).2 = ∅.
Proof.
  intros Himp Hcatch Hfall. unfold setup_calls.
  by rewrite (run_no_fallback w e e' Himp Hcatch Hfall).
Qed.

Lemma no_provider_no_call_witness :
  (run world_no_provider).1 = inl (ImportErrorSubclass "ModuleNotFoundError") ∧
  setup_calls world_no_provider = [] ∧
  globals (run world_no_provider).2 = ∅.
Proof.
  apply (no_provider_no_call world_no_provider
           (ImportErrorSubclass "ModuleNotFoundError")); reflexivity.
Defined.

(** X3: the script calls at most once, the call is the last thing it does,
    and the script ends as the call ends: an exception of [setup] is the
    script's exception, and nothing fails after [setup] has returned. *)
Theorem run_ends_as_setup_ends (w : world) (callee : value) (args : kwargs) :
  (callee, args) ∈ setup_calls w →
  setup_calls w = [(callee, args)] ∧
  last (trace (run w).2) = Some (EvCall callee args) ∧
  (run w).1 = outcome (call_raises w callee args).
Proof.
  by_run_case w; try (by intros ?%elem_of_nil); one_call; done.
Qed.

Lemma run_ends_as_setup_ends_witness :
  setup_calls world_setup_fails
  = [(VImported "setuptools" "setup", passed_keywords)] ∧
  last (trace (run world_setup_fails).2)
  = Some (EvCall (VImported "setuptools" "setup") passed_keywords) ∧
  (run world_setup_fails).1 = inl (OtherException "SystemExit").
Proof.
  apply (run_ends_as_setup_ends world_setup_fails
           (VImported "setuptools" "setup") passed_keywords).
  assert (setup_calls world_setup_fails
          = [(VImported "setuptools" "setup", passed_keywords)]) as ->
    by (vm_compute; reflexivity).
  apply list_elem_of_here.
Defined.

(** X4: the script raises nothing of its own: an exception that ends the
    run was raised by the setuptools import (and is no ImportError), by
    the distutils.core import, or by the call of [setup]. *)
Theorem run_raises_only_what_it_meets (w : world) (e : exn) :
  (run w).1 = inl e →
  (import_raises w "setuptools" "setup" = Some e ∧ is_ImportError e = false) ∨
  import_raises w "distutils.core" "setup" = Some e ∨
  (∃ callee args, (callee, args) ∈ setup_calls w ∧
                  call_raises w callee args = Some e).
Proof.
  by_run_case w.
  - destruct (call_raises w _ _) as [e0|] eqn:Hcall; [|done].
    intros [= <-]. right; right. eexists _, _. split; [apply list_elem_of_here|done].
  - destruct (call_raises w _ _) as [e0|] eqn:Hcall; [|done].
    intros [= <-]. right; right. eexists _, _. split; [apply list_elem_of_here|done].
  - intros [= <-]. by right; left.
  - intros [= <-]. by left.
Qed.

Lemma run_raises_only_what_it_meets_witness :
  (import_raises world_broken_setuptools "setuptools" "setup"
   = Some (OtherException "SyntaxError") ∧
   is_ImportError (OtherException "SyntaxError") = false) ∨
  import_raises world_broken_setuptools "distutils.core" "setup"
  = Some (OtherException "SyntaxError") ∨
  (∃ callee args, (callee, args) ∈ setup_calls world_broken_setuptools ∧
                  call_raises world_broken_setuptools callee args
                  = Some (OtherException "SyntaxError")).
Proof.
  apply (run_raises_only_what_it_meets world_broken_setuptools
           (OtherException "SyntaxError")).
  reflexivity.
Defined.

(** X5: what is called is the object the name [setup] is bound to when the
    run ends, and the version passed is the value of the global
    [version]. *)
Theorem call_agrees_with_globals (w : world) (callee : value) (args : kwargs) :
  (callee, args) ∈ setup_calls w →
  globals (run w).2 !! "setup" = Some callee ∧
  keyword "version" args = globals (run w).2 !! "version".
Proof.
  by_run_case w; try (by intros ?%elem_of_nil); one_call; done.
Qed.

Lemma call_agrees_with_globals_witness :
  globals (run world_distutils_only).2 !! "setup"
  = Some (VImported "distutils.core" "setup") ∧
  keyword "version" passed_keywords
  = globals (run world_distutils_only).2 !! "version".
Proof.
  apply (call_agrees_with_globals world_distutils_only
           (VImported "distutils.core" "setup") passed_keywords).
  assert (setup_calls world_distutils_only
          = [(VImported "distutils.core" "setup", passed_keywords)]) as ->
    by (vm_compute; reflexivity).
  apply list_elem_of_here.
Defined.

(** X6: setuptools is always tried first, and distutils.core is tried
    exactly when the setuptools import raised an ImportError; nothing
    else is ever imported. *)
Theorem distutils_tried_iff_setuptools_missing (w : world) :
  (imports_of (trace (run w).2) = ["setuptools"] ∨
   imports_of (trace (run w).2) = ["setuptools"; "distutils.core"]) ∧
  ("distutils.core" ∈ imports_of (trace (run w).2) ↔
   ∃ e, import_raises w "setuptools" "setup" = Some e ∧ is_ImportError e = true).
Proof.
  destruct (run_cases w) as [Himp Hrun|e Himp Hcatch Hfall Hrun
                            |e e' Himp Hcatch Hfall Hrun|e Himp Hcatch Hrun];
    rewrite Hrun; simpl.
  - split; [by left|]. split.
    + by intros [=]%list_elem_of_singleton.
    + intros (e & He & _). congruence.
  - split; [by right|]. split; [by exists e|].
    intros _. repeat constructor.
  - split; [by right|]. split; [by exists e|].
    intros _. repeat constructor.
  - split; [by left|]. split.
    + by intros [=]%list_elem_of_singleton.
    + intros (e0 & He & Hc). congruence.
Qed.

(** X7: a run that ends normally has called [setup] exactly once, with the
    source's keywords, and that call returned. *)
Theorem normal_end_means_setup_ran (w : world) :
  (run w).1 = inr () →
  ∃ callee : value,
    (callee = VImported "setuptools" "setup" ∨
     callee = VImported "distutils.core" "setup") ∧
    setup_calls w = [(callee, passed_keywords)] ∧
    call_raises w callee passed_keywords = None.
Proof.
  by_run_case w; try done.
  - destruct (call_raises w _ _) eqn:Hcall; [done|].
    intros _. eexists. split; [by left|]. by split.
  - destruct (call_raises w _ _) eqn:Hcall; [done|].
    intros _. eexists. split; [by right|]. by split.
Qed.

Lemma normal_end_means_setup_ran_witness :
  ∃ callee : value,
    (callee = VImported "setuptools" "setup" ∨
     callee = VImported "distutils.core" "setup") ∧
    setup_calls world_setuptools = [(callee, passed_keywords)] ∧
    call_raises world_setuptools callee passed_keywords = None.
Proof.
  apply (normal_end_means_setup_ran world_setuptools). reflexivity.
Defined.

End SetupPyRuns.
